(** * MADSci_Examples: the workflow-status diagrams and the notebook code

    The repository holds two mermaid [stateDiagram] blocks (the one of
    [src/unnamed/part_000] and the one appended after
    [src/node_notebook.ipynb]) and two notebooks of Python cells.  The
    diagrams are embedded as their source lines and read by a small
    interpreter of the two line forms they use ([A --> B:label] and
    [Id:description]); the Python cells are embedded as functions. *)

From Stdlib Require Import ZArith Ascii String.
From stdpp Require Import base strings pretty list gmap sets relations.

#[local] Set Warnings "-clear-no-such-hyp,-register-all".
Local Open Scope string_scope.

(** ** Mermaid state diagrams *)

Module Mermaid.

(** The body of the code fence of [src/unnamed/part_000], lines 4-33. *)
Definition part_000_lines : list string :=
  [ "stateDiagram"
  ; "  direction LR"
  ; "  [*] --> Queued:Workflow Submitted"
  ; "  Queued --> Running:Started First Step"
  ; "  Queued --> Failed:Problem starting First Step"
  ; "  Running --> InProgress:Succeeded Non-Terminal Step"
  ; "  InProgress --> Running:Started Next Step"
  ; "  Queued --> Cancelled:Cancelled by User"
  ; "  Running --> Cancelled:Cancelled by User"
  ; "  Running --> Completed:Succeeded Final Step"
  ; "  Paused --> Running:Resumed by User"
  ; "  Running --> Paused:Paused by User"
  ; "  InProgress --> Paused:Paused by User"
  ; "  InProgress --> Cancelled:Cancelled by User"
  ; "  Failed --> InProgress:Retrying Step"
  ; "  Failed --> Queued:Resubmitted by User"
  ; "  Cancelled --> InProgress:Retrying Step"
  ; "  Cancelled --> Queued:Resubmitted by User"
  ; "  Completed --> Queued:Resubmitted by User"
  ; "  Queued --> Paused:Paused by User"
  ; "  Paused --> Queued:Resumed by User"
  ; ""
  ; "  Queued:queued"
  ; "  Running:running"
  ; "  Failed:failed"
  ; "  InProgress:in_progress"
  ; "  Cancelled:cancelled"
  ; "  Completed:completed"
  ; "  Paused:paused"
  ; "" ].

(** The body of the code fence appended to [src/node_notebook.ipynb],
    lines 412-437. *)
Definition appended_lines : list string :=
  [ "stateDiagram"
  ; "  direction LR"
  ; "  [*] --> Queued:Workflow Submitted"
  ; "  Queued --> Running:Start Step"
  ; "  Queued --> Failed:Error starting Step"
  ; "  Queued --> Cancelled:Cancelled"
  ; "  Running --> Cancelled:Cancelled"
  ; "  Running --> Completed:Succeeded Final Step"
  ; "  Running --> Failed:Error during Step"
  ; "  Paused --> Running:Resumed"
  ; "  Running --> Paused:Paused"
  ; "  Failed --> Queued:Resubmitted/Retried"
  ; "  Cancelled --> Queued:Resubmitted/Retried"
  ; "  Queued --> Paused:Paused"
  ; "  Paused --> Queued:Resumed"
  ; "  Completed --> [*]"
  ; "  Cancelled --> [*]"
  ; "  Failed --> [*]"
  ; ""
  ; "  Queued:queued"
  ; "  Running:running"
  ; "  Failed:failed"
  ; "  Cancelled:cancelled"
  ; "  Completed:completed"
  ; "  Paused:paused"
  ; "" ].

(** *** Reading a diagram *)

Definition is_space (c : ascii) : bool :=
  bool_decide (c = " "%char).

Fixpoint ltrim (s : string) : string :=
  match s with
  | String c r => if is_space c then ltrim r else s
  | EmptyString => EmptyString
  end.

Fixpoint rtrim (s : string) : string :=
  match s with
  | String c r =>
      match rtrim r with
      | EmptyString => if is_space c then EmptyString else String c EmptyString
      | r' => String c r'
      end
  | EmptyString => EmptyString
  end.

Definition trim (s : string) : string := rtrim (ltrim s).

(** [split_on pat s] cuts [s] at the first occurrence of [pat]. *)
Definition split_on (pat s : string) : option (string * string) :=
  match String.index 0 pat s with
  | Some i =>
      Some (String.substring 0 i s,
            String.substring (i + String.length pat)
                             (String.length s - (i + String.length pat)) s)
  | None => None
  end.

(** A diagram line is a transition, a state description, or neither (the
    [stateDiagram] header, the [direction] statement, a blank line). *)
Inductive item : Type :=
  | Transition (src dst : string) (label : option string)
  | Description (id text : string).

Definition parse_line (l : string) : option item :=
  let t := trim l in
  match split_on "-->" t with
  | Some (src, rest) =>
      match split_on ":" rest with
      | Some (dst, lbl) => Some (Transition (trim src) (trim dst) (Some (trim lbl)))
      | None => Some (Transition (trim src) (trim rest) None)
      end
  | None =>
      match split_on ":" t with
      | Some (id, text) => Some (Description (trim id) (trim text))
      | None => None
      end
  end.

Definition parse (ls : list string) : list item := omap parse_line ls.

Definition part_000 : list item := parse part_000_lines.
Definition appended : list item := parse appended_lines.

(** The pseudo-state [[*]] marks the start and the end of a diagram; it is
    not a state of the machine. *)
Definition star : string := "[*]".

Definition descriptions (d : list item) : list (string * string) :=
  omap (fun i => match i with
                 | Description id text => Some (id, text)
                 | Transition _ _ _ => None
                 end) d.

(** A state is shown under its description, or under its identifier when
    the diagram gives it none. *)
Definition display (d : list item) (id : string) : string :=
  match (list_to_map (descriptions d) : gmap string string) !! id with
  | Some text => text
  | None => id
  end.

(** Identifiers a diagram mentions, in order of appearance. *)
Definition mentioned (d : list item) : list string :=
  flat_map (fun i => match i with
                     | Transition a b _ => [a; b]
                     | Description id _ => [id]
                     end) d.

Definition state_ids (d : list item) : list string :=
  remove_dups (filter (fun id => id ≠ star) (mentioned d)).

Definition states (d : list item) : gset string :=
  list_to_set (display d <$> state_ids d).

(** Labelled transitions between displayed states. *)
Definition transitions (d : list item) : list (string * string * option string) :=
  omap (fun i => match i with
                 | Transition a b l => Some (display d a, display d b, l)
                 | Description _ _ => None
                 end) d.

Definition edges (d : list item) : list (string * string) :=
  fst <$> transitions d.

(** [step d a b]: the diagram has an arrow from [a] to [b]. *)
Definition step (d : list item) (a b : string) : Prop := (a, b) ∈ edges d.

#[global] Instance step_dec d a b : Decision (step d a b).
Proof. unfold step. apply _. Defined.

End Mermaid.

(** ** Comparing two diagrams *)

Section Compare.
Context {A : Type} `{EqDecision A}.

(** Elements of [l] that [k] has too, and elements of [l] that [k] lacks. *)
Definition common (l k : list A) : list A := filter (fun x => x ∈ k) l.
Definition only (l k : list A) : list A := filter (fun x => x ∉ k) l.

End Compare.

(** Two diagrams describe the same machine when they have the same states
    and the same labelled transitions. *)
Definition same_machine (d1 d2 : list Mermaid.item) : Prop :=
  Mermaid.states d1 = Mermaid.states d2 ∧
  ∀ t, t ∈ Mermaid.transitions d1 ↔ t ∈ Mermaid.transitions d2.

(** The seven workflow statuses. *)
Definition seven_states : gset string :=
  {[ "queued"; "running"; "in_progress"; "paused";
     "failed"; "cancelled"; "completed" ]}.

(** ** Python values shared by the notebooks *)

(** Python integers are unbounded: [Z]. *)
Inductive value : Type :=
  | VStr (s : string)
  | VInt (n : Z)
  | VDict (items : list (string * value)).

(** The classes of exceptions a call can raise.  [except Exception] catches
    the instances of [Exception] and of its subclasses; [KeyboardInterrupt],
    [SystemExit] and [GeneratorExit] derive from [BaseException] only. *)
Inductive exception : Type :=
  | Exception (cls : string)
  | KeyboardInterrupt
  | SystemExit
  | GeneratorExit.

Definition isinstance_Exception (e : exception) : bool :=
  match e with
  | Exception _ => true
  | KeyboardInterrupt | SystemExit | GeneratorExit => false
  end.

(** ** [node_notebook.ipynb] *)

Module NodeNotebook.

(** *** The mocked [requests] of [node_client] (cell of lines 105-144) *)

Inductive verb : Type := GET | POST.

(** A call on the test client: [requests.post( *args, **kwargs)] or
    [requests.get( *args, **kwargs)]. *)
Record forwarded : Type := {
  http_verb : verb;
  args : list value;
  kwargs : gmap string value
}.

(** [kwargs.pop("timeout", None)] removes the key when it is there and
    does nothing otherwise. *)
Definition post_no_timeout (args : list value) (kwargs : gmap string value)
  : forwarded :=
  let kwargs := delete "timeout" kwargs in
  {| http_verb := POST; args := args; kwargs := kwargs |}.

Definition get_no_timeout (args : list value) (kwargs : gmap string value)
  : forwarded :=
  let kwargs := delete "timeout" kwargs in
  {| http_verb := GET; args := args; kwargs := kwargs |}.

(** *** [ExampleNodeWithUpdates] (cell of lines 193-233) *)

(** Only the [busy] flag of the framework's [NodeStatus] is touched here. *)
Record NodeStatus : Type := { busy : bool }.

Definition some_state_key : string := "some_state_key".

(** The class attribute [node_state = {"some_state_key": 0}]. *)
Definition class_node_state : gmap string Z := {[ some_state_key := 0%Z ]}.

(** An instance: [self.node_state = ...] creates an instance attribute and
    leaves the class attribute alone; until then a read of
    [self.node_state] finds the class attribute. *)
Record node : Type := {
  own_node_state : option (gmap string Z);
  node_status : NodeStatus
}.

Definition node_state (self : node) : gmap string Z :=
  default class_node_state (own_node_state self).

Definition ExampleNodeWithUpdates (status : NodeStatus) : node :=
  {| own_node_state := None; node_status := status |}.

(** [None] stands for the [KeyError] of a missing key. *)
Definition state_handler (self : node) : option node :=
  v ← node_state self !! some_state_key;
  Some {| own_node_state := Some {[ some_state_key := (v + 1)%Z ]};
          node_status := node_status self |}.

Definition status_handler (self : node) : option node :=
  v ← node_state self !! some_state_key;
  Some {| own_node_state := own_node_state self;
          node_status := {| busy := if bool_decide (v `mod` 2 = 0)%Z
                                    then true else false |} |}.



(** [n] successive calls of a handler; a [KeyError] ends the run. *)
Fixpoint times (n : nat) (handler : node → option node) (self : node)
  : option node :=
  match n with
  | O => Some self
  | S n' => self' ← handler self; times n' handler self'
  end.

(** *** [ExampleNodeWithAction] (cell of lines 242-278) *)

Inductive ActionResult : Type :=
  | ActionSucceeded
  | ActionFailed (errors : list string).

(** The logger is the framework's; its effect is kept as the list of
    messages logged so far. *)
Definition example_action (arg1 : string) (arg2 : Z) (log : list string)
  : ActionResult * list string :=
  let log := (log ++ [ "Action called with arg1: " +:+ arg1 +:+ ", arg2: "
                       +:+ pretty arg2 ])%list in
  if bool_decide (arg2 < 0)%Z
  then (ActionFailed [ "arg2 must be non-negative" ], log)
  else (ActionSucceeded, log).

Definition is_failed (r : ActionResult) : Prop :=
  match r with ActionFailed _ => True | ActionSucceeded => False end.

Definition is_succeeded (r : ActionResult) : Prop :=
  match r with ActionSucceeded => True | ActionFailed _ => False end.

(** *** The client sessions *)

(** A method call on the client, by name. *)
Record call : Type := { method : string; arguments : list value }.

(** A block [with node_client(example_node, RestNodeClient(url=...)) as
    client:] and the client calls of its body, in order. *)
Record session : Type := { url : string; calls : list call }.

Definition ActionRequest (action_name : string) (args : list (string * value))
  : value :=
  VDict [ ("action_name", VStr action_name); ("args", VDict args) ].

Definition get_info : call := {| method := "get_info"; arguments := [] |}.
Definition get_status : call := {| method := "get_status"; arguments := [] |}.
Definition get_state : call := {| method := "get_state"; arguments := [] |}.
Definition send_action (request : value) : call :=
  {| method := "send_action"; arguments := [ request ] |}.
Definition send_admin_command (command : string) : call :=
  {| method := "send_admin_command"; arguments := [ VStr command ] |}.

(** [for i in range(n): body] *)
Definition for_range {A} (n : nat) (body : nat → list A) : list A :=
  flat_map body (seq 0 n).

Definition sessions : list session :=
  [ (* lines 152-154 *)
    {| url := "http://localhost:2000"; calls := [ get_info ] |}
  ; (* lines 182-184 *)
    {| url := "http://localhost:2000"; calls := [ get_status ] |}
  ; (* lines 228-233 *)
    {| url := "http://localhost:2000";
       calls := for_range 10 (fun _ => [ get_state; get_status ]) |}
  ; (* lines 270-278 *)
    {| url := "http://localhost:2000";
       calls := [ send_action (ActionRequest "example_action"
                    [ ("arg1", VStr "Hello"); ("arg2", VInt 42) ]) ] |}
  ; (* lines 301-309 *)
    {| url := "http://localhost:2000";
       calls := [ send_action (ActionRequest "example_action"
                    [ ("arg1", VStr "Hello") ]) ] |}
  ; (* lines 319-327 *)
    {| url := "http://localhost:2000";
       calls := [ get_status;
                  send_action (ActionRequest "example_action"
                    [ ("arg1", VStr "Hello"); ("arg2", VInt (-42)) ]) ] |}
  ; (* lines 337-339 *)
    {| url := "http://localhost:2000"; calls := [ get_info ] |}
  ; (* lines 349-365 *)
    {| url := "http://localhost:2000";
       calls := [ send_admin_command "lock";
                  send_action (ActionRequest "example_action"
                    [ ("arg1", VStr "Hello"); ("arg2", VInt 0) ]);
                  send_admin_command "unlock";
                  send_action (ActionRequest "example_action"
                    [ ("arg1", VStr "Hello"); ("arg2", VInt 0) ]) ] |} ].

Definition all_calls : list call := flat_map calls sessions.

Definition operations : gset string := list_to_set (method <$> all_calls).

End NodeNotebook.

(** ** [experiment_notebook.ipynb] *)

Module ExperimentNotebook.

(** *** [ExampleExperimentApplication] (cell of lines 44-57) *)

Module ExampleExperimentApplication.
Definition url : string := "http://localhost:8002/".
Definition experiment_name : string := "Example Experiment".
Definition experiment_description : string := "An Example Experiment".
End ExampleExperimentApplication.

(** *** The cells that run workflows *)

(** The calls the cells make on the framework's clients, each with the
    evaluation of its arguments.  Entering and leaving the context manager
    [manage_experiment] are calls too: [manage_experiment_enter] is the
    call [manage_experiment(...)] and the [__enter__] of what it returns,
    [manage_experiment_exit] its [__exit__], told what the body raised. *)
Inductive request : Type :=
  | add_resource (resource_name resource_type : string)
  | pop (resource_id : string)
  | push (resource_id : string)
  | manage_experiment_enter
  | manage_experiment_exit (raised : option exception)
  | start_workflow (name : string)
  | pause_experiment
  | check_experiment_status.

#[global] Instance exception_eq_dec : EqDecision exception.
Proof. solve_decision. Defined.

#[global] Instance request_eq_dec : EqDecision request.
Proof. solve_decision. Defined.

(** What a call does: it returns (the flag is the truth value of what it
    returned, which only [__exit__] looks at) or it raises. *)
Inductive outcome : Type :=
  | Returned (truthy : bool)
  | Raised (e : exception).

Definition returns (o : outcome) : Prop :=
  match o with Returned _ => True | Raised _ => False end.

(** [o] does not escape [except Exception]. *)
Definition stopped_by_except_Exception (o : outcome) : Prop :=
  match o with
  | Returned _ => True
  | Raised e => isinstance_Exception e = true
  end.

Inductive result (A : Type) : Type :=
  | Ok (a : A)
  | Raise (e : exception).
Arguments Ok {A} a.
Arguments Raise {A} e.

Section World.

(** The framework and the lab behind it: a state [W] and, for each call,
    its outcome and the next state. *)
Variable W : Type.
Variable ext : request → W → outcome * W.

Record st : Type := { world : W; trace : list request }.

(** Statements: state passing with exceptions. *)
Definition M (A : Type) : Type := st → result A * st.

Definition ret {A} (a : A) : M A := fun s => (Ok a, s).

Definition bind {A B} (m : M A) (k : A → M B) : M B :=
  fun s =>
    match m s with
    | (Ok a, s') => k a s'
    | (Raise e, s') => (Raise e, s')
    end.

Definition seq_ {A B} (m : M A) (k : M B) : M B := bind m (fun _ => k).

(** A call on a client is recorded in the trace, whatever it does. *)
Definition perform (r : request) : M bool :=
  fun s =>
    let '(o, w) := ext r (world s) in
    let s' := {| world := w; trace := trace s ++ [ r ] |} in
    match o with
    | Returned b => (Ok b, s')
    | Raised e => (Raise e, s')
    end.

(** A call made as a statement: what it returns is dropped. *)
Definition stmt (r : request) : M unit := seq_ (perform r) (ret tt).

(** [try: body / except Exception: pass] *)
Definition try_except_Exception_pass {A} (body : M A) : M unit :=
  fun s =>
    match body s with
    | (Ok _, s') => (Ok tt, s')
    | (Raise e, s') =>
        if isinstance_Exception e then (Ok tt, s') else (Raise e, s')
    end.

(** [with experiment_application.manage_experiment(...): body] *)
Definition with_manage_experiment (body : M unit) : M unit :=
  bind (perform manage_experiment_enter) (fun _ s =>
    match body s with
    | (Ok _, s') => stmt (manage_experiment_exit None) s'
    | (Raise e, s') =>
        match perform (manage_experiment_exit (Some e)) s' with
        | (Ok true, s'') => (Ok tt, s'')
        | (Ok false, s'') => (Raise e, s'')
        | (Raise e', s'') => (Raise e', s'')
        end
    end).

Definition location_1 : string := "01JR8F3KF3BPZG1BEDK9DKXNWH".
Definition location_2 : string := "01JR8F3KN3MA49C0HW0H727STM".
Definition workflow_2 : string := "Example Workflow 2".

(** Lines 195-200 and 204-209. *)
Definition try_pop (resource_id : string) : M unit :=
  try_except_Exception_pass (perform (pop resource_id)).

(** Lines 195-209. *)
Definition cleanup : M unit :=
  seq_ (try_pop location_1)
    (seq_ (stmt (push location_1))
      (try_pop location_2)).

(** Lines 131-135, 210-214 and 284-288. *)
Definition submit (name : string) : M unit :=
  with_manage_experiment (stmt (start_workflow name)).

Definition cleanup_and_submit : M unit := seq_ cleanup (submit workflow_2).

(** Lines 192-214. *)
Definition cell : M unit :=
  seq_ (stmt (add_resource "my_asset" "well_plate")) cleanup_and_submit.


Definition start (w : W) : st := {| world := w; trace := [] |}.

End World.

Arguments world {W} s.
Arguments trace {W} s.
Arguments start {W} w.



(** A world in which the resources are missing: [pop] and [push] fail with
    an [Exception]. *)
Definition missing_resource (r : request) (w : unit) : outcome * unit :=
  match r with
  | pop _ | push _ => (Raised (Exception "HTTPError"), w)
  | _ => (Returned false, w)
  end.


End ExperimentNotebook.

(** * Properties *)

Local Open Scope list_scope.

(** ** The diagrams, read *)

Section CompareFacts.
Context {A : Type} `{EqDecision A}.

Lemma elem_of_common (l k : list A) x : x ∈ common l k ↔ x ∈ l ∧ x ∈ k.
Proof. unfold common. rewrite list_elem_of_filter. tauto. Qed.

Lemma elem_of_only (l k : list A) x : x ∈ only l k ↔ x ∈ l ∧ x ∉ k.
Proof. unfold only. rewrite list_elem_of_filter. tauto. Qed.
End CompareFacts.

Import Mermaid.

Lemma state_names_part_000 :
  display part_000 <$> state_ids part_000 =
  [ "queued"; "running"; "failed"; "in_progress"; "cancelled"; "completed"; "paused" ].
Proof. vm_compute. reflexivity. Qed.

Lemma state_names_appended :
  display appended <$> state_ids appended =
  [ "queued"; "running"; "failed"; "cancelled"; "completed"; "paused" ].
Proof. vm_compute. reflexivity. Qed.

Lemma edges_part_000 :
  edges part_000 =
  [ ("[*]", "queued"); ("queued", "running"); ("queued", "failed");
    ("running", "in_progress"); ("in_progress", "running");
    ("queued", "cancelled"); ("running", "cancelled");
    ("running", "completed"); ("paused", "running"); ("running", "paused");
    ("in_progress", "paused"); ("in_progress", "cancelled");
    ("failed", "in_progress"); ("failed", "queued");
    ("cancelled", "in_progress"); ("cancelled", "queued");
    ("completed", "queued"); ("queued", "paused"); ("paused", "queued") ].
Proof. vm_compute. reflexivity. Qed.

Lemma edges_appended :
  edges appended =
  [ ("[*]", "queued"); ("queued", "running"); ("queued", "failed");
    ("queued", "cancelled"); ("running", "cancelled");
    ("running", "completed"); ("running", "failed"); ("paused", "running");
    ("running", "paused"); ("failed", "queued"); ("cancelled", "queued");
    ("queued", "paused"); ("paused", "queued"); ("completed", "[*]");
    ("cancelled", "[*]"); ("failed", "[*]") ].
Proof. vm_compute. reflexivity. Qed.

Lemma states_part_000 : states part_000 = seven_states.
Proof.
  unfold states, seven_states. rewrite state_names_part_000. simpl.
  set_solver.
Qed.

Lemma states_appended :
  states appended =
  {[ "queued"; "running"; "paused"; "failed"; "cancelled"; "completed" ]}.
Proof.
  unfold states. rewrite state_names_appended. simpl. set_solver.
Qed.

Lemma in_progress_not_appended : "in_progress" ∉ states appended.
Proof. rewrite states_appended. set_solver. Qed.

Lemma in_progress_part_000 : "in_progress" ∈ states part_000.
Proof. rewrite states_part_000. unfold seven_states. set_solver. Qed.

Lemma states_appended_minus :
  states appended = seven_states ∖ {[ "in_progress" ]}.
Proof. rewrite states_appended. unfold seven_states. set_solver. Qed.

(** Arrows are decided by evaluation; paths are given state by state. *)
Ltac arrow := unfold step; compute_done.
Ltac via s := apply tc_l with s; [arrow | ].
Ltac direct := apply tc_once; arrow.

Lemma transitions_part_000 :
  transitions part_000 =
  [ ("[*]", "queued", Some "Workflow Submitted");
    ("queued", "running", Some "Started First Step");
    ("queued", "failed", Some "Problem starting First Step");
    ("running", "in_progress", Some "Succeeded Non-Terminal Step");
    ("in_progress", "running", Some "Started Next Step");
    ("queued", "cancelled", Some "Cancelled by User");
    ("running", "cancelled", Some "Cancelled by User");
    ("running", "completed", Some "Succeeded Final Step");
    ("paused", "running", Some "Resumed by User");
    ("running", "paused", Some "Paused by User");
    ("in_progress", "paused", Some "Paused by User");
    ("in_progress", "cancelled", Some "Cancelled by User");
    ("failed", "in_progress", Some "Retrying Step");
    ("failed", "queued", Some "Resubmitted by User");
    ("cancelled", "in_progress", Some "Retrying Step");
    ("cancelled", "queued", Some "Resubmitted by User");
    ("completed", "queued", Some "Resubmitted by User");
    ("queued", "paused", Some "Paused by User");
    ("paused", "queued", Some "Resumed by User") ].
Proof. vm_compute. reflexivity. Qed.

Lemma transitions_appended :
  transitions appended =
  [ ("[*]", "queued", Some "Workflow Submitted");
    ("queued", "running", Some "Start Step");
    ("queued", "failed", Some "Error starting Step");
    ("queued", "cancelled", Some "Cancelled");
    ("running", "cancelled", Some "Cancelled");
    ("running", "completed", Some "Succeeded Final Step");
    ("running", "failed", Some "Error during Step");
    ("paused", "running", Some "Resumed");
    ("running", "paused", Some "Paused");
    ("failed", "queued", Some "Resubmitted/Retried");
    ("cancelled", "queued", Some "Resubmitted/Retried");
    ("queued", "paused", Some "Paused");
    ("paused", "queued", Some "Resumed");
    ("completed", "[*]", None);
    ("cancelled", "[*]", None);
    ("failed", "[*]", None) ].
Proof. vm_compute. reflexivity. Qed.

(** ** The two diagrams compared (C2, C3) *)

(** C2, as stated, does not hold: [in_progress] is a state of the diagram
    of [part_000] and not of the appended one, so the two diagrams are not
    the same machine. *)
Lemma C2_same_machine_refuted : ¬ same_machine part_000 appended.
Proof.
  intros [H _]. rewrite states_part_000, states_appended in H.
  unfold seven_states in H. set_solver.
Qed.

(** C2, amended: the two diagrams are different machines.  The appended
    diagram has the states of the diagram of [part_000] other than
    in_progress.  Twelve arrows are in both; seven are in [part_000] alone
    and four in the appended diagram alone; with their labels, two
    transitions are in both. *)
Theorem C2_diagrams_compared :
  states appended = states part_000 ∖ {[ "in_progress" ]} ∧
  "in_progress" ∈ states part_000 ∧
  common (edges part_000) (edges appended) =
    [ ("[*]", "queued"); ("queued", "running"); ("queued", "failed");
      ("queued", "cancelled"); ("running", "cancelled");
      ("running", "completed"); ("paused", "running"); ("running", "paused");
      ("failed", "queued"); ("cancelled", "queued"); ("queued", "paused");
      ("paused", "queued") ] ∧
  only (edges part_000) (edges appended) =
    [ ("running", "in_progress"); ("in_progress", "running");
      ("in_progress", "paused"); ("in_progress", "cancelled");
      ("failed", "in_progress"); ("cancelled", "in_progress");
      ("completed", "queued") ] ∧
  only (edges appended) (edges part_000) =
    [ ("running", "failed"); ("completed", "[*]"); ("cancelled", "[*]");
      ("failed", "[*]") ] ∧
  common (transitions part_000) (transitions appended) =
    [ ("[*]", "queued", Some "Workflow Submitted");
      ("running", "completed", Some "Succeeded Final Step") ].
Proof.
  split; [rewrite states_part_000; exact states_appended_minus | ].
  split; [exact in_progress_part_000 | ].
  rewrite edges_part_000, edges_appended,
    transitions_part_000, transitions_appended.
  repeat split; vm_compute; reflexivity.
Qed.

(** C3, as stated, does not hold: the appended diagram has no state
    [in_progress], so it is not true that both diagrams have the seven
    states. *)
Lemma C3_both_seven_refuted :
  ¬ (states part_000 = seven_states ∧ states appended = seven_states).
Proof.
  intros [_ H]. apply in_progress_not_appended. rewrite H.
  unfold seven_states. set_solver.
Qed.

(** C3, amended: the diagram of [part_000] has exactly the seven states
    queued, running, in_progress, paused, failed, cancelled and completed;
    the appended diagram has exactly the six of them other than
    in_progress. *)
Theorem C3_state_sets :
  states part_000 = seven_states ∧
  states appended = seven_states ∖ {[ "in_progress" ]} ∧
  size (states part_000) = 7 ∧ size (states appended) = 6.
Proof.
  split; [exact states_part_000 | ].
  split; [exact states_appended_minus | ].
  split.
  - unfold states. rewrite state_names_part_000. compute_done.
  - unfold states. rewrite state_names_appended. compute_done.
Qed.

(** ** The diagram of [part_000] (C8, C9) *)

(** C8: in the diagram of [part_000] the arrows out of paused go to running
    and to queued and nowhere else; in_progress can be paused, and paused
    has no arrow back to in_progress. *)
Theorem C8_paused_successors :
  (∀ t, step part_000 "paused" t ↔ t = "running" ∨ t = "queued") ∧
  step part_000 "in_progress" "paused" ∧
  ¬ step part_000 "paused" "in_progress".
Proof.
  split; [ | split; [arrow | ] ].
  - intros t. unfold step. rewrite edges_part_000. set_unfold. naive_solver.
  - unfold step. rewrite edges_part_000. set_unfold. naive_solver.
Qed.

(** From each of the seven states, queued is reached in one or two
    arrows. *)
Lemma queued_reachable (s : string) :
  s ∈ seven_states → tc (step part_000) s "queued".
Proof.
  unfold seven_states. set_unfold. intros Hs.
  repeat destruct Hs as [Hs | Hs]; subst s;
    first [ direct | via "paused"; direct ].
Qed.

Lemma queued_in_seven : "queued" ∈ seven_states.
Proof. unfold seven_states. set_solver. Qed.

Lemma paused_in_seven : "paused" ∈ seven_states.
Proof. unfold seven_states. set_solver. Qed.

(** C9: in the diagram of [part_000] each of the seven states has an arrow
    to some state, and queued is reached from each of them in one or more
    arrows. *)
Theorem C9_no_dead_end (s : string) :
  s ∈ states part_000 →
  (∃ t, t ∈ states part_000 ∧ step part_000 s t) ∧
  tc (step part_000) s "queued".
Proof.
  rewrite states_part_000. intros Hs.
  split; [ | exact (queued_reachable s Hs) ].
  unfold seven_states in Hs. set_unfold in Hs.
  repeat destruct Hs as [Hs | Hs]; subst s;
    first [ exists "queued"; split; [exact queued_in_seven | arrow]
          | exists "paused"; split; [exact paused_in_seven | arrow] ].
Qed.

Lemma C9_no_dead_end_witness :
  (∃ t, t ∈ states part_000 ∧ step part_000 "completed" t) ∧
  tc (step part_000) "completed" "queued".
Proof.
  apply (C9_no_dead_end "completed").
  rewrite states_part_000. unfold seven_states. set_solver.
Defined.

(** ** [node_notebook.ipynb] (C1, C6, C7, C10) *)

Section NodeNotebookFacts.
Import NodeNotebook.

Lemma example_action_result (arg1 : string) (arg2 : Z) (log : list string) :
  (example_action arg1 arg2 log).1 =
  if bool_decide (arg2 < 0)%Z
  then ActionFailed [ "arg2 must be non-negative" ] else ActionSucceeded.
Proof. unfold example_action. case_bool_decide; reflexivity. Qed.

(** C1: [example_action] returns a failed result if and only if [arg2] is
    negative, the failed result then carries the one error "arg2 must be
    non-negative", and it returns a succeeded result if and only if [arg2]
    is not negative. *)
Theorem C1_example_action (arg1 : string) (arg2 : Z) (log : list string) :
  let r := (example_action arg1 arg2 log).1 in
  (is_failed r ↔ (arg2 < 0)%Z) ∧
  (r = ActionFailed [ "arg2 must be non-negative" ] ↔ (arg2 < 0)%Z) ∧
  (is_succeeded r ↔ (0 ≤ arg2)%Z) ∧
  (r = ActionSucceeded ↔ (0 ≤ arg2)%Z).
Proof.
  cbv zeta. rewrite example_action_result.
  case_bool_decide; simpl; repeat split; intros; try done; try lia.
Qed.

(** C7: the methods called on the client in the notebook are get_info,
    get_status, get_state, send_action and send_admin_command and no other;
    each call of send_admin_command has the one argument "lock" or
    "unlock", and both occur. *)
Theorem C7_client_operations :
  operations =
    {[ "get_info"; "get_status"; "get_state"; "send_action";
       "send_admin_command" ]} ∧
  (∀ c, c ∈ all_calls → method c = "send_admin_command" →
        arguments c = [ VStr "lock" ] ∨ arguments c = [ VStr "unlock" ]) ∧
  arguments <$> filter (λ c, method c = "send_admin_command") all_calls =
    [ [ VStr "lock" ]; [ VStr "unlock" ] ].
Proof.
  split; [ | split ].
  - unfold operations.
    assert (remove_dups (method <$> all_calls) =
            [ "get_state"; "get_status"; "get_info"; "send_admin_command";
              "send_action" ]) as H by (vm_compute; reflexivity).
    apply set_eq. intros x.
    rewrite elem_of_list_to_set, <- elem_of_remove_dups, H.
    set_unfold. tauto.
  - intros c Hc Hm.
    assert (Forall (λ c, method c = "send_admin_command" →
                         arguments c = [ VStr "lock" ] ∨
                         arguments c = [ VStr "unlock" ]) all_calls) as H.
    { vm_compute.
      repeat (apply List.Forall_cons;
              [ intros Hd;
                first [ discriminate Hd | left; reflexivity
                      | right; reflexivity ] | ]).
      apply List.Forall_nil. }
    rewrite Forall_forall in H. exact (H c Hc Hm).
  - vm_compute. reflexivity.
Qed.






End NodeNotebookFacts.

(** C6: the class [ExampleExperimentApplication] has the url
    "http://localhost:8002/", and every [RestNodeClient] of the node
    notebook is made with the url "http://localhost:2000". *)
Theorem C6_endpoints :
  ExperimentNotebook.ExampleExperimentApplication.url
    = "http://localhost:8002/" ∧
  Forall (λ s, NodeNotebook.url s = "http://localhost:2000")
         NodeNotebook.sessions ∧
  NodeNotebook.sessions ≠ [].
Proof.
  split; [reflexivity | split; [ | discriminate] ].
  unfold NodeNotebook.sessions. repeat constructor.
Qed.

(** ** [experiment_notebook.ipynb] (C4) *)

Section ExperimentNotebookFacts.
Import ExperimentNotebook.


Section AnyWorld.
Variable W : Type.
Variable ext : request → W → outcome * W.

(** What [try_pop] does, by the outcome of the call of [pop]. *)
Lemma try_pop_spec (rid : string) (s : st W) :
  try_pop W ext rid s =
  let s' := {| world := (ext (pop rid) (world s)).2;
               trace := trace s ++ [ pop rid ] |} in
  match (ext (pop rid) (world s)).1 with
  | Returned _ => (Ok tt, s')
  | Raised e => if isinstance_Exception e then (Ok tt, s') else (Raise e, s')
  end.
Proof.
  unfold try_pop, try_except_Exception_pass, perform.
  destruct (ext (pop rid) (world s)) as [[b | e] w]; reflexivity.
Qed.

(** What a call made as a statement does. *)
Lemma stmt_spec (r : request) (s : st W) :
  stmt W ext r s =
  let s' := {| world := (ext r (world s)).2; trace := trace s ++ [ r ] |} in
  match (ext r (world s)).1 with
  | Returned _ => (Ok tt, s')
  | Raised e => (Raise e, s')
  end.
Proof.
  unfold stmt, seq_, bind, perform, ret.
  destruct (ext r (world s)) as [[b | e] w]; reflexivity.
Qed.

Lemma perform_spec (r : request) (s : st W) :
  perform W ext r s =
  let s' := {| world := (ext r (world s)).2; trace := trace s ++ [ r ] |} in
  match (ext r (world s)).1 with
  | Returned b => (Ok b, s')
  | Raised e => (Raise e, s')
  end.
Proof.
  unfold perform. destruct (ext r (world s)) as [[b | e] w]; reflexivity.
Qed.

(** Each statement keeps the calls made so far and adds its own. *)
Lemma stmt_trace (r : request) (s : st W) :
  trace (stmt W ext r s).2 = trace s ++ [ r ].
Proof. rewrite stmt_spec. simpl. destruct (ext r (world s)).1; reflexivity. Qed.

Lemma try_pop_trace (rid : string) (s : st W) :
  trace (try_pop W ext rid s).2 = trace s ++ [ pop rid ].
Proof.
  rewrite try_pop_spec. simpl.
  destruct (ext (pop rid) (world s)).1 as [b | e]; [reflexivity | ].
  destruct (isinstance_Exception e); reflexivity.
Qed.

(** When the entry of [manage_experiment] returns, the body runs, and
    [__exit__] is the one call after it. *)
Lemma with_manage_experiment_entered (body : M W unit) (s : st W) :
  returns (ext manage_experiment_enter (world s)).1 →
  let s1 := {| world := (ext manage_experiment_enter (world s)).2;
               trace := trace s ++ [ manage_experiment_enter ] |} in
  ∃ raised,
    trace (with_manage_experiment W ext body s).2 =
    trace (body s1).2 ++ [ manage_experiment_exit raised ] ∧
    raised = match (body s1).1 with Ok _ => None | Raise e => Some e end.
Proof.
  intros Henter. cbv zeta.
  unfold with_manage_experiment, bind. rewrite perform_spec. cbv zeta.
  destruct (ext manage_experiment_enter (world s)).1 as [b | e];
    [ | destruct Henter].
  destruct (body _) as [[[] | e] s2].
  - exists None. rewrite stmt_trace. split; reflexivity.
  - exists (Some e). rewrite perform_spec. simpl.
    destruct (ext (manage_experiment_exit (Some e)) (world s2)).1
      as [[] | e']; split; reflexivity.
Qed.

(** When the entry of [manage_experiment] raises, nothing else is
    called. *)
Lemma with_manage_experiment_not_entered (body : M W unit) (s : st W) e :
  (ext manage_experiment_enter (world s)).1 = Raised e →
  with_manage_experiment W ext body s =
  (Raise e, {| world := (ext manage_experiment_enter (world s)).2;
               trace := trace s ++ [ manage_experiment_enter ] |}).
Proof.
  intros Henter. unfold with_manage_experiment, bind.
  rewrite perform_spec, Henter. reflexivity.
Qed.




End AnyWorld.


End ExperimentNotebookFacts.

(** * Further properties *)

(** ** The diagrams: start, end and connectedness *)

Section DiagramsMore.

Lemma seven_from_queued (t : string) :
  t ∈ seven_states → tc (step part_000) "queued" t.
Proof.
  unfold seven_states. set_unfold. intros Ht.
  repeat destruct Ht as [Ht | Ht]; subst t;
    first [ direct | via "paused"; direct | via "running"; direct ].
Qed.

(** X14: In the diagram of [part_000] every state is reached from every state
    (itself too) in one or more arrows. *)
Theorem part_000_strongly_connected (s t : string) :
  s ∈ states part_000 → t ∈ states part_000 →
  tc (step part_000) s t.
Proof.
  rewrite states_part_000. intros Hs Ht.
  etrans; [exact (queued_reachable s Hs) | exact (seven_from_queued t Ht)].
Qed.

Lemma part_000_strongly_connected_witness :
  tc (step part_000) "completed" "in_progress".
Proof.
  apply (part_000_strongly_connected "completed" "in_progress");
    rewrite states_part_000; unfold seven_states; set_solver.
Defined.

(** X15: Both diagrams start in queued: the only arrow out of [[*]] goes
    there. *)
Theorem start_is_queued (t : string) :
  (step part_000 star t ↔ t = "queued") ∧
  (step appended star t ↔ t = "queued").
Proof.
  unfold step, star. rewrite edges_part_000, edges_appended.
  split; set_unfold; naive_solver.
Qed.

(** X16: The diagram of [part_000] has no arrow to the end [[*]]; in the
    appended diagram completed, cancelled and failed have one, and no
    other state has. *)
Theorem end_states (s : string) :
  ¬ step part_000 s star ∧
  (step appended s star ↔
   s = "completed" ∨ s = "cancelled" ∨ s = "failed").
Proof.
  unfold step, star. rewrite edges_part_000, edges_appended.
  split; set_unfold; naive_solver.
Qed.

(** X17: A completed workflow can only be resubmitted in the diagram of
    [part_000], and can only end in the appended diagram. *)
Theorem completed_successors (t : string) :
  (step part_000 "completed" t ↔ t = "queued") ∧
  (step appended "completed" t ↔ t = star).
Proof.
  unfold step, star. rewrite edges_part_000, edges_appended.
  split; set_unfold; naive_solver.
Qed.

(** X18: In the appended diagram the end is reached from every state. *)
Theorem appended_can_end (s : string) :
  s ∈ states appended → tc (step appended) s star.
Proof.
  rewrite states_appended. set_unfold. intros Hs. unfold star.
  repeat destruct Hs as [Hs | Hs]; subst s;
    first [ direct | via "failed"; direct
          | via "running"; via "failed"; direct ].
Qed.

Lemma appended_can_end_witness : tc (step appended) "paused" star.
Proof.
  apply (appended_can_end "paused"). rewrite states_appended. set_solver.
Defined.

End DiagramsMore.

(** ** Reading a diagram line *)

Section ReadingLines.

Lemma substring_all (s : string) :
  String.substring 0 (String.length s) s = s.
Proof.
  induction s as [ | c s IH]; simpl; [reflexivity | ].
  rewrite IH. reflexivity.
Qed.

Lemma append_String (c : ascii) (x y : string) :
  String c x +:+ y = String c (x +:+ y).
Proof. reflexivity. Qed.

Lemma substring_cut (s : string) (i a : nat) :
  String.substring i a s +:+
  String.substring (i + a) (String.length s - (i + a)) s =
  String.substring i (String.length s - i) s.
Proof.
  revert i a. induction s as [ | c s IH]; intros i a.
  - destruct i, a; reflexivity.
  - destruct i as [ | i].
    + destruct a as [ | a]; [reflexivity | ].
      simpl. rewrite append_String. f_equal. specialize (IH 0 a).
      simpl in IH. rewrite Nat.sub_0_r in IH. exact IH.
    + simpl. apply IH.
Qed.

(** Where [split_on] cuts, the two parts and the pattern between them
    make up the string again, and the pattern does not occur earlier. *)
Lemma split_on_join (pat s a b : string) :
  split_on pat s = Some (a, b) →
  s = a +:+ pat +:+ b ∧
  ∀ p, p < String.length a →
       String.substring p (String.length pat) s ≠ pat.
Proof.
  unfold split_on.
  destruct (String.index 0 pat s) as [i | ] eqn:Hi; [ | discriminate].
  intros [= <- <-]. split.
  - pose proof (substring_cut s 0 i) as H0. simpl in H0.
    rewrite Nat.sub_0_r, substring_all in H0.
    pose proof (substring_cut s i (String.length pat)) as H1.
    rewrite <- H1, (index_correct1 _ _ _ _ Hi) in H0.
    symmetry. exact H0.
  - intros p Hp. apply (index_correct2 _ _ _ _ Hi); [lia | ].
    clear -Hp. revert i p Hp.
    induction s as [ | c s IH]; intros i p Hp.
    + destruct i; simpl in Hp; lia.
    + destruct i as [ | i]; simpl in Hp; [lia | ].
      destruct p as [ | p]; [lia | ].
      specialize (IH i p). lia.
Qed.

(** A line in which the pattern does not occur is not cut. *)
Lemma split_on_none (pat s : string) :
  pat ≠ "" →
  (split_on pat s = None ↔
   ∀ p, String.substring p (String.length pat) s ≠ pat).
Proof.
  intros Hpat. unfold split_on.
  destruct (String.index 0 pat s) as [i | ] eqn:Hi.
  - split; [discriminate | ]. intros H. destruct (H i).
    exact (index_correct1 _ _ _ _ Hi).
  - split; [ | reflexivity]. intros _ p.
    apply (index_correct3 _ _ _ _ Hi Hpat). lia.
Qed.

Lemma ltrim_head (s : string) (c : ascii) (r : string) :
  ltrim s = String c r → is_space c = false.
Proof.
  induction s as [ | c' s IH]; simpl; [discriminate | ].
  destruct (is_space c') eqn:E; [exact IH | ].
  intros [= <- <-]. exact E.
Qed.

Lemma rtrim_head (c : ascii) (r : string) :
  is_space c = false → ∃ r', rtrim (String c r) = String c r'.
Proof.
  intros Hc. simpl. destruct (rtrim r); [ | eexists; reflexivity].
  rewrite Hc. eexists. reflexivity.
Qed.

Lemma rtrim_rtrim (s : string) : rtrim (rtrim s) = rtrim s.
Proof.
  induction s as [ | c s IH]; simpl; [reflexivity | ].
  destruct (rtrim s) as [ | c' t] eqn:E.
  - destruct (is_space c) eqn:Ec; simpl; [reflexivity | ].
    rewrite Ec. reflexivity.
  - remember (String c' t) as u. simpl. rewrite IH. subst u. reflexivity.
Qed.

Lemma rtrim_last (s t : string) : rtrim s ≠ t +:+ " ".
Proof.
  revert t. induction s as [ | c s IH]; intros t; simpl.
  - destruct t; discriminate.
  - destruct (rtrim s) as [ | c' u] eqn:E.
    + destruct (is_space c) eqn:Ec; [destruct t; discriminate | ].
      destruct t as [ | c1 t]; simpl.
      * intros [= ->]. discriminate Ec.
      * intros [= _ H]. destruct t; discriminate.
    + destruct t as [ | c1 t]; simpl; [discriminate | ].
      intros [= _ H]. exact (IH t H).
Qed.

(** [trim] leaves no space at either end, and trimming again changes
    nothing. *)
Lemma trim_trimmed (s : string) :
  trim (trim s) = trim s ∧
  (∀ t, trim s ≠ " " +:+ t) ∧
  (∀ t, trim s ≠ t +:+ " ").
Proof.
  unfold trim. destruct (ltrim s) as [ | c r] eqn:E.
  - simpl. split; [reflexivity | ]. split; intros t; [discriminate | ].
    destruct t; discriminate.
  - pose proof (ltrim_head s c r E) as Hc.
    destruct (rtrim_head c r Hc) as [r' Hr]. split; [ | split].
    + rewrite Hr. simpl ltrim. rewrite Hc, <- Hr. apply rtrim_rtrim.
    + intros t. rewrite Hr. simpl. intros [= -> _]. discriminate Hc.
    + intros t. apply rtrim_last.
Qed.

End ReadingLines.

(** ** [node_notebook.ipynb]: the mocked requests *)

Section NodeNotebookMore.
Import NodeNotebook.

(** X1: What [post_no_timeout] and [get_no_timeout] hand to the test client:
    the positional arguments as they came, and the keyword arguments
    without "timeout" and otherwise as they came. *)
Theorem no_timeout_forwarded (a : list value) (kw : gmap string value) :
  let p := post_no_timeout a kw in
  let g := get_no_timeout a kw in
  http_verb p = POST ∧ http_verb g = GET ∧
  args p = a ∧ args g = a ∧
  kwargs p = kwargs g ∧
  kwargs p !! "timeout" = None ∧
  (∀ k, k ≠ "timeout" → kwargs p !! k = kw !! k) ∧
  (kw !! "timeout" = None → kwargs p = kw).
Proof.
  cbv zeta. unfold post_no_timeout, get_no_timeout. simpl.
  repeat split.
  - apply lookup_delete_eq.
  - intros k Hk. apply lookup_delete_ne. done.
  - apply delete_id.
Qed.

(** ** [ExampleNodeWithUpdates] *)

Lemma state_handler_one_key (v : Z) (status : NodeStatus) :
  state_handler {| own_node_state := Some {[ some_state_key := v ]};
                   node_status := status |} =
  Some {| own_node_state := Some {[ some_state_key := (v + 1)%Z ]};
          node_status := status |}.
Proof.
  unfold state_handler, node_state. simpl. rewrite lookup_singleton_eq.
  reflexivity.
Qed.

Lemma state_handler_fresh (status : NodeStatus) :
  state_handler (ExampleNodeWithUpdates status) =
  Some {| own_node_state := Some {[ some_state_key := 1%Z ]};
          node_status := status |}.
Proof.
  unfold state_handler, node_state, class_node_state. simpl.
  rewrite lookup_singleton_eq. reflexivity.
Qed.

Lemma times_state_handler_one_key (n : nat) (v : Z) (status : NodeStatus) :
  times n state_handler
    {| own_node_state := Some {[ some_state_key := v ]};
       node_status := status |} =
  Some {| own_node_state := Some {[ some_state_key := (v + Z.of_nat n)%Z ]};
          node_status := status |}.
Proof.
  revert v. induction n as [ | n IH]; intros v.
  - simpl. rewrite Z.add_0_r. reflexivity.
  - cbn [times]. rewrite state_handler_one_key. simpl. rewrite IH.
    do 3 f_equal. f_equal. lia.
Qed.

(** X2: After [n] calls of [state_handler] on a fresh instance,
    [node_state] is [{"some_state_key": n}] and [node_status] is the one
    the instance was made with; the class attribute is read only by the
    first call. *)
Theorem state_handler_counts (n : nat) (status : NodeStatus) :
  ∃ self', times n state_handler (ExampleNodeWithUpdates status) = Some self' ∧
    node_state self' = {[ some_state_key := Z.of_nat n ]} ∧
    node_status self' = status ∧
    (own_node_state self' = None ↔ n = 0).
Proof.
  destruct n as [ | n].
  - eexists. split; [reflexivity | ]. repeat split.
  - cbn [times]. rewrite state_handler_fresh. simpl.
    rewrite times_state_handler_one_key. eexists. split; [reflexivity | ].
    unfold node_state. simpl. repeat split; try done.
    do 2 f_equal. lia.
Qed.

(** X3: [state_handler] builds a new one-key dict: whatever other keys
    [node_state] had are gone after it. *)
Theorem state_handler_rebuilds (self : node) (v : Z) :
  node_state self !! some_state_key = Some v →
  ∃ self', state_handler self = Some self' ∧
    node_state self' = {[ some_state_key := (v + 1)%Z ]} ∧
    ∀ k, k ≠ some_state_key → node_state self' !! k = None.
Proof.
  intros Hv. unfold state_handler. rewrite Hv. simpl.
  eexists. split; [reflexivity | ]. unfold node_state. simpl.
  split; [reflexivity | ].
  intros k Hk. apply lookup_singleton_ne. done.
Qed.

Lemma state_handler_rebuilds_witness :
  ∃ self',
    state_handler
      {| own_node_state := Some {[ some_state_key := 3%Z; "other" := 1%Z ]};
         node_status := {| busy := false |} |} = Some self' ∧
    node_state self' = {[ some_state_key := (3 + 1)%Z ]} ∧
    ∀ k, k ≠ some_state_key → node_state self' !! k = None.
Proof.
  apply (state_handler_rebuilds
           {| own_node_state :=
                Some {[ some_state_key := 3%Z; "other" := 1%Z ]};
              node_status := {| busy := false |} |} 3%Z).
  reflexivity.
Defined.

(** X4: The handlers raise [KeyError] exactly when [node_state] has no key
    "some_state_key". *)
Theorem handlers_KeyError (self : node) :
  (state_handler self = None ↔ node_state self !! some_state_key = None) ∧
  (status_handler self = None ↔ node_state self !! some_state_key = None).
Proof.
  unfold state_handler, status_handler.
  destruct (node_state self !! some_state_key); simpl; split; split;
    intros; done.
Qed.

(** X5: [status_handler] leaves [node_state] alone, and a second call changes
    nothing. *)
Theorem status_handler_idempotent (self self' : node) :
  status_handler self = Some self' →
  node_state self' = node_state self ∧ status_handler self' = Some self'.
Proof.
  unfold status_handler.
  destruct (node_state self !! some_state_key) as [v | ] eqn:Hv;
    [ | discriminate].
  simpl. intros [= <-]. unfold node_state in *. simpl.
  split; [reflexivity | ]. rewrite Hv. reflexivity.
Qed.

Lemma status_handler_idempotent_witness :
  node_state {| own_node_state := None; node_status := {| busy := true |} |}
  = node_state (ExampleNodeWithUpdates {| busy := false |}) ∧
  status_handler
    {| own_node_state := None; node_status := {| busy := true |} |}
  = Some {| own_node_state := None; node_status := {| busy := true |} |}.
Proof.
  apply (status_handler_idempotent (ExampleNodeWithUpdates {| busy := false |})).
  reflexivity.
Defined.

(** X6: Each state update flips what [status_handler] reports: busy after
    one more [state_handler] is the opposite of busy before it. *)
Theorem busy_alternates (self s1 s2 s3 : node) :
  status_handler self = Some s1 →
  state_handler self = Some s2 →
  status_handler s2 = Some s3 →
  busy (node_status s3) = negb (busy (node_status s1)).
Proof.
  unfold status_handler, state_handler.
  destruct (node_state self !! some_state_key) as [v | ] eqn:Hv;
    [ | discriminate].
  simpl. intros [= <-] [= <-]. unfold node_state. simpl.
  rewrite lookup_singleton_eq. simpl. intros [= <-]. simpl.
  pose proof (Z.mod_pos_bound v 2) as Hb.
  pose proof (Z.mod_pos_bound (v + 1) 2) as Hb'.
  pose proof (Z.div_mod v 2) as Hd.
  pose proof (Z.div_mod (v + 1) 2) as Hd'.
  repeat case_bool_decide; simpl; try reflexivity; exfalso; lia.
Qed.

Lemma busy_alternates_witness :
  busy {| busy := false |} = negb (busy {| busy := true |}).
Proof.
  apply (busy_alternates
           (ExampleNodeWithUpdates {| busy := false |})
           {| own_node_state := None; node_status := {| busy := true |} |}
           {| own_node_state := Some {[ some_state_key := 1%Z ]};
              node_status := {| busy := false |} |}
           {| own_node_state := Some {[ some_state_key := 1%Z ]};
              node_status := {| busy := false |} |});
    reflexivity.
Defined.

(** ** [ExampleNodeWithAction] *)

(** X7: [example_action] logs one message, after the messages logged before,
    whether it fails or not; its result depends on [arg2] alone. *)
Theorem example_action_log (arg1 arg1' : string) (arg2 : Z)
    (log log' : list string) :
  (example_action arg1 arg2 log).2 =
    log ++ [ "Action called with arg1: " +:+ arg1 +:+ ", arg2: "
             +:+ pretty arg2 ] ∧
  length (example_action arg1 arg2 log).2 = S (length log) ∧
  (example_action arg1 arg2 log).1 = (example_action arg1' arg2 log').1.
Proof.
  rewrite !example_action_result.
  unfold example_action. case_bool_decide; simpl;
    rewrite length_app; simpl; repeat split; lia.
Qed.

End NodeNotebookMore.

(** ** [experiment_notebook.ipynb]: which calls are made, and in which
       order *)

Section ExperimentNotebookMore.
Import ExperimentNotebook.

Section AnyWorldMore.
Variable W : Type.
Variable ext : request → W → outcome * W.

(** X8: [try: ... except Exception: pass] lets through the exceptions that are
    not instances of [Exception], those and no other, and leaves the state
    as the body left it. *)
Theorem try_except_Exception_pass_propagates {A} (body : M W A) (s : st W)
    (e : exception) :
  ((try_except_Exception_pass W body s).1 = Raise e ↔
   (body s).1 = Raise e ∧ isinstance_Exception e = false) ∧
  (try_except_Exception_pass W body s).2 = (body s).2.
Proof.
  unfold try_except_Exception_pass.
  destruct (body s) as [[a | e'] s']; simpl.
  - split; [ | reflexivity]. split; [discriminate | intros [[=] _]].
  - destruct (isinstance_Exception e') eqn:E; simpl.
    + split; [ | reflexivity]. split; [discriminate | ].
      intros [[= ->] He]. congruence.
    + split; [ | reflexivity]. split.
      * intros [= ->]. split; [reflexivity | exact E].
      * intros [[= ->] _]. reflexivity.
Qed.

Lemma cleanup_trace (s : st W) :
  trace (cleanup W ext s).2 = trace s ++ [ pop location_1 ] ∨
  trace (cleanup W ext s).2
    = trace s ++ [ pop location_1; push location_1 ] ∨
  trace (cleanup W ext s).2
    = trace s ++ [ pop location_1; push location_1; pop location_2 ].
Proof.
  unfold cleanup, seq_, bind.
  pose proof (try_pop_trace W ext location_1 s) as H1.
  destruct (try_pop W ext location_1 s) as [[[] | e1] s1]; simpl in *.
  2: { left. exact H1. }
  pose proof (stmt_trace W ext (push location_1) s1) as H2.
  destruct (stmt W ext (push location_1) s1) as [[[] | e2] s2]; simpl in *.
  2: { right. left. rewrite H2, H1, <- app_assoc. reflexivity. }
  right. right.
  rewrite try_pop_trace, H2, H1, <- !app_assoc. reflexivity.
Qed.

Lemma cleanup_returns (s s' : st W) :
  cleanup W ext s = (Ok tt, s') →
  trace s' = trace s ++ [ pop location_1; push location_1; pop location_2 ].
Proof.
  unfold cleanup, seq_, bind.
  pose proof (try_pop_trace W ext location_1 s) as H1.
  destruct (try_pop W ext location_1 s) as [[[] | e1] s1]; [ | discriminate].
  pose proof (stmt_trace W ext (push location_1) s1) as H2.
  destruct (stmt W ext (push location_1) s1) as [[[] | e2] s2];
    [ | discriminate].
  pose proof (try_pop_trace W ext location_2 s2) as H3.
  intros H. rewrite H in H3. simpl in *.
  rewrite H3, H2, H1, <- !app_assoc. reflexivity.
Qed.


(** X10: When [push] raises, whatever it raises leaves the cell: the second
    [pop] and the workflow submission are not reached. *)
Theorem push_failure_stops (w : W) (e : exception) :
  let o1 := ext (pop location_1) w in
  let o2 := ext (push location_1) o1.2 in
  stopped_by_except_Exception o1.1 →
  o2.1 = Raised e →
  cleanup_and_submit W ext (start w) =
  (Raise e, {| world := o2.2;
               trace := [ pop location_1; push location_1 ] |}).
Proof.
  cbv zeta. intros H1 H2.
  unfold cleanup_and_submit, cleanup, seq_, bind.
  rewrite try_pop_spec. simpl.
  assert (match (ext (pop location_1) w).1 with
          | Returned _ => true
          | Raised e => isinstance_Exception e
          end = true) as Hc.
  { destruct (ext (pop location_1) w).1; [reflexivity | exact H1]. }
  destruct (ext (pop location_1) w).1 as [b | e1];
    [ | rewrite Hc]; rewrite stmt_spec; simpl; rewrite H2; reflexivity.
Qed.

Lemma submit_trace (name : string) (s : st W) :
  (returns (ext manage_experiment_enter (world s)).1 →
   ∃ raised, trace (submit W ext name s).2 =
             trace s ++ [ manage_experiment_enter; start_workflow name;
                          manage_experiment_exit raised ]) ∧
  (¬ returns (ext manage_experiment_enter (world s)).1 →
   trace (submit W ext name s).2 = trace s ++ [ manage_experiment_enter ]).
Proof.
  split.
  - intros Henter. unfold submit.
    destruct (with_manage_experiment_entered W ext
                (stmt W ext (start_workflow name)) s Henter)
      as [r [-> _]].
    rewrite stmt_trace. simpl. exists r. rewrite <- !app_assoc. reflexivity.
  - intros Henter. unfold submit.
    destruct (ext manage_experiment_enter (world s)).1 as [b | e] eqn:E;
      [destruct Henter; exact I | ].
    rewrite (with_manage_experiment_not_entered W ext _ s e E).
    reflexivity.
Qed.

(** X11: [start_workflow] is called by [submit] exactly when the entry of
    [manage_experiment] returns, and then [__exit__] is called after it,
    once; when the entry raises, neither is called. *)
Theorem submit_calls (name : string) (w : W) :
  let t := trace (submit W ext name (start w)).2 in
  (returns (ext manage_experiment_enter w).1 →
   ∃ raised, t = [ manage_experiment_enter; start_workflow name;
                   manage_experiment_exit raised ]) ∧
  (¬ returns (ext manage_experiment_enter w).1 →
   t = [ manage_experiment_enter ]).
Proof. cbv zeta. exact (submit_trace name (start w)). Qed.

(** X12: Whatever the framework does, the calls of the cell of lines 192-214
    are the first calls of: [add_resource], [pop] at location 1, [push]
    at location 1, [pop] at location 2, the entry of [manage_experiment],
    [start_workflow], [__exit__]; so no call is made before the ones
    listed ahead of it. *)
Theorem cell_calls (w : W) :
  ∃ raised,
    trace (cell W ext (start w)).2 `prefix_of`
    [ add_resource "my_asset" "well_plate";
      pop location_1; push location_1; pop location_2;
      manage_experiment_enter; start_workflow workflow_2;
      manage_experiment_exit raised ] ∧
    trace (cell W ext (start w)).2 ≠ [].
Proof.
  unfold cell, cleanup_and_submit, seq_, bind.
  pose proof (stmt_trace W ext (add_resource "my_asset" "well_plate")
                (start w)) as H0.
  destruct (stmt W ext _ (start w)) as [[[] | e0] s0]; simpl in H0.
  2: { exists None. simpl. rewrite H0. split; [ | discriminate].
       eexists. reflexivity. }
  pose proof (cleanup_trace s0) as Hc.
  pose proof (cleanup_returns s0) as Hr.
  destruct (cleanup W ext s0) as [[[] | e1] s1]; simpl in Hc.
  2: { exists None. simpl. rewrite H0 in Hc.
       destruct Hc as [-> | [-> | ->]];
         (split; [eexists; reflexivity | discriminate]). }
  specialize (Hr s1 eq_refl). rewrite H0 in Hr. simpl in Hr.
  destruct (submit_trace workflow_2 s1) as [Hin Hout].
  destruct (ext manage_experiment_enter (world s1)).1 as [b | e] eqn:E.
  - destruct (Hin I) as [r Ht]. exists r. rewrite Ht, Hr. simpl.
    split; [exists []; reflexivity | discriminate].
  - exists None. rewrite Hout by (intros []). rewrite Hr. simpl.
    split; [eexists; reflexivity | discriminate].
Qed.


End AnyWorldMore.

Lemma push_failure_stops_witness :
  cleanup_and_submit unit missing_resource (start tt) =
  (Raise (Exception "HTTPError"),
   {| world := tt; trace := [ pop location_1; push location_1 ] |}).
Proof.
  apply (push_failure_stops unit missing_resource tt (Exception "HTTPError"));
    reflexivity.
Defined.


End ExperimentNotebookMore.
